(** * ExtendedConsole: prefix resolution and method dispatch

    A shallow embedding of [src/ExtendedConsole.mjs] and the properties of
    its prefix resolver, dispatch wrappers, mode gate and prefix suppressor.

    Conventions of the embedding.
    - JavaScript values are the inductive [value]; numbers are the
      integer-valued ones, functions are code pointers (a name); the host
      says what a call returns or throws ([call_function]).
    - Objects that the program uses as dictionaries ([config.prefix],
      [this.prefix], the icon pack, [ICON_PACK_MAP], [DEFAULT_PREFIXES]) are
      finite maps from property names to values; a bracket read on a plain
      object literal also sees the function members inherited from
      [Object.prototype] ([Object_prototype]).  Property names are ordinary
      ones: the accessor [__proto__] is not a method identifier.
    - The instance [this] is the record [engine]: its data fields, plus the
      set of custom wrappers the constructor installed as own properties.
      A wrapper is stored under the method's name, so it can take the place
      of a field; section "Configurations the embedding covers" says which
      of these the record follows.
    - The ambient sink (the four channel functions captured in
      [_originalConsole]), user functions, the dynamic import of the icon
      pack and [process.env.NODE_ENV] form the [Host].  The sink functions
      return; user functions return or throw, and do not call back into the
      engine.
    - Every computation runs in the monad [M]: it threads the [world]
      (instance, global console bindings, the list of sink invocations so
      far) and either returns or throws; a throw keeps the state reached. *)

From Stdlib Require Import ZArith List.
From stdpp Require Import base option list strings gmap.

Set Warnings "-register-all,-clear-no-such-hyp".

(** ** Values *)

Inductive value : Type :=
  | VUndef
  | VNull
  | VBool (b : bool)
  | VNum (n : Z)
  | VStr (s : string)
  | VArr (elems : list value)
  | VObj (props : list (string * value))
  | VFun (f : string).

(** [!!v]. *)
Definition truthy (v : value) : bool :=
  match v with
  | VUndef | VNull => false
  | VBool b => b
  | VNum n => negb (n =? 0)%Z
  | VStr s => negb (String.eqb s "")
  | VArr _ | VObj _ | VFun _ => true
  end.

(** [typeof v === 'function'] and [v !== false]. *)
Definition is_function (v : value) : bool :=
  match v with VFun _ => true | _ => false end.

Definition not_false (v : value) : bool :=
  match v with VBool false => false | _ => true end.

(** [a || b]. *)
Definition js_or (a b : value) : value := if truthy a then a else b.

(** The function-valued members every plain object inherits. *)
Definition Object_prototype_functions : list string :=
  [ "constructor"; "hasOwnProperty"; "isPrototypeOf"; "propertyIsEnumerable";
    "toLocaleString"; "toString"; "valueOf";
    "__defineGetter__"; "__defineSetter__"; "__lookupGetter__"; "__lookupSetter__" ].

Definition Object_prototype (k : string) : value :=
  if String.eqb k "constructor" then VFun "Object"
  else if bool_decide (k ∈ Object_prototype_functions) then VFun k
  else VUndef.

(** [o[k]] on a plain object [o]. *)
Definition get (o : gmap string value) (k : string) : value :=
  match o !! k with
  | Some v => v
  | None => Object_prototype k
  end.

(** The property key a value is converted to when used inside brackets
    (strings name themselves; a native function prints its source). *)
Definition property_key (v : value) : string :=
  match v with
  | VStr s => s
  | VFun f => "function " +:+ f +:+ "() { [native code] }"
  | _ => ""
  end.

(** ** Module constants *)

Definition ICON_PACK_MAP : gmap string value :=
  list_to_map
    [ ("log", VStr "pin"); ("success", VStr "check_green"); ("warn", VStr "warn");
      ("error", VStr "fail"); ("info", VStr "info"); ("check", VStr "success");
      ("skip", VStr "skip"); ("connect", VStr "connect");
      ("disconnect", VStr "disconnect") ].

Definition ESC : string := String (Ascii.ascii_of_nat 27) "".

Definition DEFAULT_PREFIXES : gmap string value :=
  list_to_map
    [ ("log", VStr ">");
      ("success", VStr (ESC +:+ "[32m✔" +:+ ESC +:+ "[0m"));
      ("warn", VStr (ESC +:+ "[33m⚠" +:+ ESC +:+ "[0m"));
      ("error", VStr (ESC +:+ "[31m✖" +:+ ESC +:+ "[0m"));
      ("info", VStr (ESC +:+ "[34mℹ" +:+ ESC +:+ "[0m"));
      ("check", VStr (ESC +:+ "[34m✔" +:+ ESC +:+ "[0m"));
      ("skip", VStr (ESC +:+ "[36m>>" +:+ ESC +:+ "[0m")) ].

(** ** Configuration

    The constructor argument, typed as the interface documents it; a missing
    option is [VUndef], a missing map is empty.  [customMethods] lists the
    own entries of the object in key order ([Object.keys]). *)

Module Config.
Record t : Type := Make {
  usePrefix : value;
  useDefaultPrefixes : value;
  defaultPrefix : value;
  prefix : gmap string value;
  useIconPack : value;
  devMode : value;
  customMethods : list (string * value)
}.

(** [{}] *)
Definition empty : t :=
  Make VUndef VUndef VUndef ∅ VUndef VUndef [].
End Config.

(** [config.customMethods[k]] for a key of the object. *)
Fixpoint entry (l : list (string * value)) (k : string) : value :=
  match l with
  | [] => VUndef
  | (k', v) :: l' => if String.eqb k' k then v else entry l' k
  end.

(** ** The instance, the global object and the sink *)

Inductive channel : Type := Plain | Warning | Error | Informational.

Record engine : Type := Engine {
  (** the constructor's argument, which the wrappers keep in their closure;
      [this.config] too, unless a wrapper took that name ([this_config]) *)
  config : Config.t;
  (** [!!this.usePrefix], [!!this.useDefaultPrefixes]: the class only tests
      these two for truthiness *)
  usePrefix : bool;
  useDefaultPrefixes : bool;
  defaultPrefixString : value;
  (** the map in [this.prefix] *)
  prefix : gmap string value;
  (** [!!this.isDev] *)
  isDev : bool;
  _customMethodNames : list string;
  _temporarilyDisablePrefix : value;
  (** names [m] under which the instance holds a wrapper
      [this[m] = (...args) => ...] of the constructor *)
  wrappers : gset string
}.

(** What the engine assigned to a property of the global [console]. *)
Inductive binding : Type :=
  | BoundMethod (method : string)   (* this[method].bind(this) *)
  | DevGate                         (* () => this.dev() *)
  | PrefixSuppressor.               (* () => new Proxy(this, ...) *)

Record world : Type := World {
  this : engine;
  console : gmap string binding;
  sunk : list (channel * list value)
}.

Definition set_this (f : engine → engine) (w : world) : world :=
  World (f (this w)) (console w) (sunk w).


Definition set_temporarilyDisablePrefix (v : value) (e : engine) : engine :=
  Engine (config e) (usePrefix e) (useDefaultPrefixes e) (defaultPrefixString e)
         (prefix e) (isDev e) (_customMethodNames e) v (wrappers e).

(** [this[m] = (...args) => ...]: the wrapper becomes the own property [m].
    Stored under the name of one of the three flags, it is what the tests
    of that flag read from then on, and a function is truthy. *)
Definition add_wrapper (m : string) (e : engine) : engine :=
  Engine (config e)
         (usePrefix e || String.eqb m "usePrefix")
         (useDefaultPrefixes e || String.eqb m "useDefaultPrefixes")
         (defaultPrefixString e)
         (prefix e)
         (isDev e || String.eqb m "isDev")
         (_customMethodNames e)
         (_temporarilyDisablePrefix e) ({[ m ]} ∪ wrappers e).

(** [this.prefix = p]: the assignment replaces what the property held, a
    wrapper stored under that name included. *)
Definition assign_prefix (p : gmap string value) (e : engine) : engine :=
  Engine (config e) (usePrefix e) (useDefaultPrefixes e) (defaultPrefixString e)
         p (isDev e) (_customMethodNames e) (_temporarilyDisablePrefix e)
         (wrappers e ∖ {[ "prefix" ]}).

(** [this.config], as [init] hands it to [_initPrefix].  A wrapper stored
    under that name is a function: [_initPrefix] reads [prefix] and
    [useIconPack] on it and finds both [undefined], as on [{}]. *)
Definition this_config (e : engine) : Config.t :=
  if bool_decide ("config" ∈ wrappers e) then Config.empty else config e.

Definition set_console (k : string) (b : binding) (w : world) : world :=
  World (this w) (<[ k := b ]> (console w)) (sunk w).

(** ** Outcomes and the monad *)

Inductive outcome (A : Type) : Type :=
  | Ret (a : A)
  | Throw (e : value).
Arguments Ret {A} a.
Arguments Throw {A} e.

Definition M (A : Type) : Type := world → outcome A * world.

#[global] Instance M_ret : MRet M := λ A a w, (Ret a, w).
#[global] Instance M_bind : MBind M := λ A B f m w,
  match m w with
  | (Ret a, w') => f a w'
  | (Throw e, w') => (Throw e, w')
  end.

Definition throw {A} (e : value) : M A := λ w, (Throw e, w).
Definition read {A} (f : engine → A) : M A := λ w, (Ret (f (this w)), w).
Definition modify (f : engine → engine) : M unit := λ w, (Ret tt, set_this f w).

Definition lift {A} (o : outcome A) : M A := λ w, (o, w).

(** [console[k] = b] *)
Definition assign_console (k : string) (b : binding) : M unit :=
  λ w, (Ret tt, set_console k b w).

Definition TypeError (msg : string) : value :=
  VObj [("name", VStr "TypeError"); ("message", VStr msg)].

(** The result of [await import('@ultimaserve/emoji-icons')]: the value of
    [imported.default || imported], or the rejection's [message]. *)
Inductive import_result : Type :=
  | Imported (iconPack : gmap string value)
  | Rejected (message : value).

Class Host : Type := {
  (** the channel functions of the ambient console, as copied into
      [this._originalConsole]: what each returns for its arguments *)
  _originalConsole : channel → list value → value;
  (** a function value applied to arguments: what it returns or throws *)
  call_function : string → list value → outcome value;
  import_emoji_icons : import_result;
  (** [process.env.NODE_ENV === 'development'] *)
  NODE_ENV_is_development : bool
}.

(** [for (const x of l) body(x)] *)
Fixpoint for_of {A} (l : list A) (body : A → M unit) : M unit :=
  match l with
  | [] => mret tt
  | x :: l' => body x;; for_of l' body
  end.

(** [[...new Set(l)]]: first occurrences, in order. *)
Fixpoint Set_from (seen l : list string) : list string :=
  match l with
  | [] => []
  | x :: l' =>
      if bool_decide (x ∈ seen) then Set_from seen l'
      else x :: Set_from (x :: seen) l'
  end.

(** [Object.getOwnPropertyNames(ExtendedConsole.prototype)] *)
Definition ExtendedConsole_prototype : list string :=
  [ "constructor"; "init"; "_initPrefix"; "_getPrefix";
    "log"; "success"; "warn"; "error"; "info"; "check"; "skip"; "connect";
    "disconnect"; "dev"; "overrideConsoleMethods" ].

(** What [this[k]] evaluates to. *)
Inductive member : Type :=
  | Wrapper              (* own property: the wrapper of a custom method *)
  | Builtin              (* a logging method of the class *)
  | ObjectField          (* own data field holding an object or an array *)
  | Value (v : value).   (* any other value; [VUndef] when [k] names nothing *)

Definition this_get (e : engine) (k : string) : member :=
  if bool_decide (k ∈ wrappers e) then Wrapper else
  match k with
  | "_originalConsole" | "config" | "prefix" | "_customMethodNames" => ObjectField
  | "usePrefix" => Value (VBool (usePrefix e))
  | "useDefaultPrefixes" => Value (VBool (useDefaultPrefixes e))
  | "defaultPrefixString" => Value (defaultPrefixString e)
  | "isDev" => Value (VBool (isDev e))
  | "_temporarilyDisablePrefix" => Value (_temporarilyDisablePrefix e)
  | "log" | "success" | "warn" | "error" | "info" | "check" | "skip"
  | "connect" | "disconnect" => Builtin
  | "init" | "_initPrefix" | "_getPrefix" | "overrideConsoleMethods" | "dev" =>
      Value (VFun k)
  | "constructor" => Value (VFun "ExtendedConsole")
  | _ => Value (Object_prototype k)
  end.

(** [typeof this[k] === 'function'] and [!!this[k]]. *)
Definition member_is_function (m : member) : bool :=
  match m with
  | Wrapper | Builtin => true
  | ObjectField => false
  | Value v => is_function v
  end.

Definition member_truthy (m : member) : bool :=
  match m with
  | Wrapper | Builtin | ObjectField => true
  | Value v => truthy v
  end.

(** [[...(prefix ? [prefix, ...args] : args)]] *)
Definition spread_prefixed (prefix : string) (args : list value) : list value :=
  if truthy (VStr prefix) then VStr prefix :: args else args.

(** [_getPrefix(method)]; it only reads the instance. *)
Definition _getPrefix (e : engine) (method : string) : string :=
  if truthy (_temporarilyDisablePrefix e) then ""
  else
    let prefixValue := get (prefix e) method in
    match prefixValue with
    | VStr s => if negb (String.eqb s "") then s +:+ " " else ""
    | _ => ""
    end.

(** [Array.isArray(processedArgs) ? processedArgs : [processedArgs]] *)
Definition finalArgs_of (processedArgs : value) : list value :=
  match processedArgs with
  | VArr elems => elems
  | v => [v]
  end.

Section Engine.
Context `{Host}.

(** [this._originalConsole.<channel>(...args)] *)
Definition sink (ch : channel) (args : list value) : M value := λ w,
  (Ret (_originalConsole ch args),
   World (this w) (console w) (sunk w ++ [(ch, args)])).

(** [f.apply(null, args)], [f(...args)] *)
Definition apply (f : value) (args : list value) : M value :=
  match f with
  | VFun name => lift (call_function name args)
  | _ => throw (TypeError "not a function")
  end.

(** *** Standard methods *)

Definition log (args : list value) : M value :=
  prefix ← read (λ e, _getPrefix e "log");
  sink Plain (spread_prefixed prefix args).

Definition success (args : list value) : M value :=
  prefix ← read (λ e, _getPrefix e "success");
  sink Plain (spread_prefixed prefix args).

Definition warn (args : list value) : M value :=
  prefix ← read (λ e, _getPrefix e "warn");
  sink Warning (spread_prefixed prefix args).

Definition error (args : list value) : M value :=
  prefix ← read (λ e, _getPrefix e "error");
  sink Error (spread_prefixed prefix args).

Definition info (args : list value) : M value :=
  prefix ← read (λ e, _getPrefix e "info");
  sink Informational (spread_prefixed prefix args).

Definition check (args : list value) : M value :=
  prefix ← read (λ e, _getPrefix e "check");
  sink Plain (spread_prefixed prefix args).

Definition skip (args : list value) : M value :=
  prefix ← read (λ e, _getPrefix e "skip");
  sink Plain (spread_prefixed prefix args).

Definition connect (args : list value) : M value :=
  prefix ← read (λ e, _getPrefix e "connect");
  sink Plain (spread_prefixed prefix args).

Definition disconnect (args : list value) : M value :=
  prefix ← read (λ e, _getPrefix e "disconnect");
  sink Plain (spread_prefixed prefix args).

(** The method of the class that a built-in name denotes. *)
Definition standard_method (k : string) : option (list value → M value) :=
  match k with
  | "log" => Some log
  | "success" => Some success
  | "warn" => Some warn
  | "error" => Some error
  | "info" => Some info
  | "check" => Some check
  | "skip" => Some skip
  | "connect" => Some connect
  | "disconnect" => Some disconnect
  | _ => None
  end.

(** *** Custom methods: the wrapper the constructor installs *)

Definition custom_method (methodName : string) (args : list value) : M value :=
  prefix ← read (λ e, _getPrefix e methodName);
  handler ← read (λ e, entry (Config.customMethods (config e)) methodName);
  processedArgs ← apply handler args;
  let finalArgs := finalArgs_of processedArgs in
  sink Plain (spread_prefixed prefix finalArgs).

(** [this[k](...args)].  A member that is a function but neither a wrapper
    nor a logging method (the class's other methods, what is inherited from
    [Object.prototype]) is applied like any function value, by the host;
    calling a member that is not a function throws. *)
Definition invoke (k : string) (args : list value) : M value := λ w,
  match this_get (this w) k with
  | Wrapper => custom_method k args w
  | Builtin =>
      match standard_method k with
      | Some f => f args w
      | None => throw (TypeError "not a function") w
      end
  | ObjectField => throw (TypeError "not a function") w
  | Value v => apply v args w
  end.
End Engine.

Section Lifecycle.
Context `{Host}.

(** *** The constructor *)

(** The instance right after the field assignments of the constructor. *)
Definition fields (config : Config.t) : engine :=
  {| config := config;
     usePrefix := not_false (Config.usePrefix config);
     useDefaultPrefixes := not_false (Config.useDefaultPrefixes config);
     defaultPrefixString := js_or (Config.defaultPrefix config) (VStr "");
     prefix := ∅;
     isDev :=
       match Config.devMode config with
       | VBool b => b
       | _ => NODE_ENV_is_development
       end;
     _customMethodNames := (Config.customMethods config).*1;
     _temporarilyDisablePrefix := VUndef;
     wrappers := ∅ |}.

(** The body of the loop over [this._customMethodNames]. *)
Definition define_custom_method (config : Config.t) (methodName : string) : M unit :=
  if is_function (entry (Config.customMethods config) methodName) then
    existing ← read (λ e, this_get e methodName);
    (if member_truthy existing then
       sink Warning
         [VStr ("[ExtendedConsole] Custom method '" +:+ methodName +:+
                "' might overwrite an existing method.")];; mret tt
     else mret tt);;
    modify (add_wrapper methodName)
  else
    sink Warning
      [VStr ("[ExtendedConsole] Custom method '" +:+ methodName +:+
             "' is not a function and will be ignored.")];; mret tt.

Definition constructor (config : Config.t) : M unit :=
  names ← read _customMethodNames;
  for_of names (define_custom_method config).

(** [new ExtendedConsole(config)], with nothing bound on the global object
    and no sink invocation recorded yet. *)
Definition new_ExtendedConsole (config : Config.t) : outcome unit * world :=
  constructor config (World (fields config) ∅ []).

(** *** Prefix resolution *)

Definition builtInMethods (e : engine) : list string :=
  List.filter
    (λ method,
       negb (String.eqb method "constructor") &&
       negb (String.eqb method "init") &&
       negb (String.eqb method "_initPrefix") &&
       negb (String.eqb method "_getPrefix") &&
       negb (String.eqb method "overrideConsoleMethods") &&
       negb (String.eqb method "dev") &&
       negb (String.eqb method "noPrefix") &&
       member_is_function (this_get e method))
    ExtendedConsole_prototype.

Definition allMethodNames (e : engine) : list string :=
  Set_from [] (builtInMethods e ++ _customMethodNames e).

(** [userPrefix.hasOwnProperty(method)].  The method is looked up on the
    override map itself: an own entry named [hasOwnProperty] shadows the
    inherited one and is what gets called, and a call of a value that is
    not a function throws. *)
Definition hasOwnProperty (userPrefix : gmap string value) (method : string)
  : outcome bool :=
  match userPrefix !! "hasOwnProperty" with
  | None => Ret (bool_decide (is_Some (userPrefix !! method)))
  | Some (VFun f) =>
      match call_function f [VStr method] with
      | Ret answer => Ret (truthy answer)
      | Throw err => Throw err
      end
  | Some _ => Throw (TypeError "userPrefix.hasOwnProperty is not a function")
  end.

(** Tiers 2 to 4 of the resolution loop. *)
Definition lower_tiers
    (e : engine) (iconPack : option (gmap string value)) (method : string)
  : value :=
  let icon :=
    match iconPack with
    | Some pack =>
        if truthy (get ICON_PACK_MAP method)
        then default VUndef (pack !! property_key (get ICON_PACK_MAP method))
        else VUndef
    | None => VUndef
    end in
  if truthy icon then icon
  else if useDefaultPrefixes e && truthy (get DEFAULT_PREFIXES method)
  then get DEFAULT_PREFIXES method
  else defaultPrefixString e.

(** One turn of the resolution loop: the value stored for [method], unless
    the test of tier 1 throws. *)
Definition prefixValue_for
    (e : engine) (userPrefix : gmap string value)
    (iconPack : option (gmap string value)) (method : string) : outcome value :=
  match hasOwnProperty userPrefix method with
  | Ret true => Ret (get userPrefix method)
  | Ret false => Ret (lower_tiers e iconPack method)
  | Throw err => Throw err
  end.

Definition assign_all (f : string → value) (names : list string)
  : gmap string value :=
  foldl (λ resolvedPrefixMap method, <[ method := f method ]> resolvedPrefixMap)
        ∅ names.

(** [for (const method of names) resolvedPrefixMap[method] = <f method>],
    where a turn can throw; the map is local to [_initPrefix]. *)
Fixpoint resolve_all
    (f : string → outcome value) (names : list string)
    (resolvedPrefixMap : gmap string value) : outcome (gmap string value) :=
  match names with
  | [] => Ret resolvedPrefixMap
  | method :: names' =>
      match f method with
      | Ret prefixValue =>
          resolve_all f names' (<[ method := prefixValue ]> resolvedPrefixMap)
      | Throw err => Throw err
      end
  end.

Definition _initPrefix (config : Config.t) : M unit :=
  let userPrefix := Config.prefix config in
  e ← read id;
  let allMethodNames := allMethodNames e in
  if negb (usePrefix e) then
    modify (assign_prefix (assign_all (λ _, VStr "") allMethodNames))
  else
    iconPack ←
      (if truthy (Config.useIconPack config) then
         match import_emoji_icons with
         | Imported pack => mret (Some pack)
         | Rejected message =>
             sink Warning
               [VStr "[ExtendedConsole] Could not load @ultimaserve/emoji-icons. Skipping icon pack.";
                message];;
             mret None
         end
       else mret None);
    resolvedPrefixMap ←
      lift (resolve_all (prefixValue_for e userPrefix iconPack) allMethodNames ∅);
    modify (assign_prefix resolvedPrefixMap).

(** *** Binding onto the global object *)

(** The body of the loop over [allMethodNamesToOverride]. *)
Definition override_method (method : string) : M unit :=
  m ← read (λ e, this_get e method);
  if member_is_function m then
    assign_console method (BoundMethod method)
  else
    sink Warning
      [VStr ("[ExtendedConsole] Method '" +:+ method +:+
             "' not found on instance during override.")];; mret tt.

Definition overrideConsoleMethods : M unit :=
  e ← read id;
  let allMethodNamesToOverride :=
    Set_from [] (builtInMethods e ++ _customMethodNames e) in
  for_of allMethodNamesToOverride override_method;;
  assign_console "dev" DevGate;;
  assign_console "noPrefix" PrefixSuppressor.

Definition init : M unit :=
  config ← read this_config;
  _initPrefix config;;
  overrideConsoleMethods.

(** *** The dispatch surfaces *)

(** [dev()[prop](...args)] *)
Definition dev (prop : string) (args : list value) : M value :=
  isDev ← read isDev;
  if negb isDev then mret VUndef  (* the no-op of the empty proxy *)
  else invoke prop args.          (* target[prop].bind(target), or a non-function *)

(** [console.noPrefix()[prop](...args)] *)
Definition noPrefix (prop : string) (args : list value) : M value :=
  target_prop ← read (λ e, this_get e prop);
  if member_is_function target_prop then
    previousState ← read _temporarilyDisablePrefix;
    modify (set_temporarilyDisablePrefix (VBool true));;
    result ← invoke prop args;
    modify (set_temporarilyDisablePrefix previousState);;
    mret result
  else invoke prop args.          (* the proxy hands out a non-function *)

(** [console[k](...args)] for a method the engine bound. *)
Definition console_call (k : string) (args : list value) : M value := λ w,
  match console w !! k with
  | Some (BoundMethod method) => invoke method args w
  | _ => throw (TypeError "not a bound method") w
  end.
End Lifecycle.

(** ** Configurations the embedding covers

    The wrapper of a callable custom method is stored on the instance under
    the method's name, where it can take the place of a member the class
    relies on.  The names of those members are [reserved_names]: the fields
    the constructor sets, the suppression flag, the internal methods of the
    class and [__proto__].

    The embedding follows a wrapper stored under five of them: [usePrefix],
    [useDefaultPrefixes] and [isDev] (the flag is truthy from then on,
    [add_wrapper]), [config] ([init] then reads a function,
    [this_config]) and [prefix] ([_initPrefix] assigns the resolved map
    over it, [assign_prefix]; while the wrapper is there
    [this.prefix?.[method]] reads a property of that function, which is
    never a non-empty string, and for the method names [caller] and
    [arguments] is a throwing accessor, which the embedding leaves out).
    It does not follow a wrapper stored under one of [unfollowed_names]:
    there the record no longer describes the instance.  The keys of
    [customMethods] are distinct, being the keys of one object.

    [covered] is the domain of the embedding.  The general theorems about a
    configuration are stated on the smaller domain [well_formed], where no
    callable entry has a reserved name at all. *)

Definition reserved_names : list string :=
  [ "_originalConsole"; "config"; "usePrefix"; "useDefaultPrefixes";
    "defaultPrefixString"; "prefix"; "isDev"; "_customMethodNames";
    "_temporarilyDisablePrefix";
    "init"; "_initPrefix"; "_getPrefix"; "overrideConsoleMethods"; "dev";
    "__proto__" ].

Definition unfollowed_names : list string :=
  [ "_originalConsole"; "defaultPrefixString"; "_customMethodNames";
    "_temporarilyDisablePrefix";
    "init"; "_initPrefix"; "_getPrefix"; "overrideConsoleMethods"; "dev";
    "__proto__" ].

Definition callable_names (config : Config.t) : list string :=
  List.filter (λ k, is_function (entry (Config.customMethods config) k))
              (Config.customMethods config).*1.

Definition well_formed (config : Config.t) : Prop :=
  NoDup (Config.customMethods config).*1 ∧
  Forall (λ k, k ∉ reserved_names) (callable_names config).

Definition covered (config : Config.t) : Prop :=
  NoDup (Config.customMethods config).*1 ∧
  Forall (λ k, k ∉ unfollowed_names) (callable_names config) ∧
  ("prefix" ∈ callable_names config →
   ("caller" ∉ callable_names config) ∧ ("arguments" ∉ callable_names config)).

(** ** Tables read off the class *)

(** The logging methods of the class, in declaration order, and the channel
    of [_originalConsole] each one writes to. *)
Definition standard_names : list string :=
  [ "log"; "success"; "warn"; "error"; "info"; "check"; "skip"; "connect";
    "disconnect" ].

Definition standard_channel (k : string) : channel :=
  match k with
  | "warn" => Warning
  | "error" => Error
  | "info" => Informational
  | _ => Plain
  end.

Definition set_wrappers (s : gset string) (e : engine) : engine :=
  Engine (config e) (usePrefix e) (useDefaultPrefixes e) (defaultPrefixString e)
         (prefix e) (isDev e) (_customMethodNames e)
         (_temporarilyDisablePrefix e) s.

(** The world after [this._originalConsole.<ch>(...args)]. *)
Definition sent (ch : channel) (args : list value) (w : world) : world :=
  World (this w) (console w) (sunk w ++ [(ch, args)]).

(** [new ExtendedConsole(config)] followed by [await init()]. *)
Definition started `{Host} (config : Config.t) : outcome unit * world :=
  init (new_ExtendedConsole config).2.

(** What [_initPrefix(config)] computes on the instance [e], read off its
    two branches: the icon pack it ends up with ([null] when none was
    requested or the import was rejected), the warning of the [catch]
    clause, and the map it stores in [this.prefix] unless the loop throws
    ([resolution], lemma [initPrefix_spec]).  [resolved_value] and
    [resolved_prefixes] are the value and the map when the override map has
    no own entry named [hasOwnProperty] (lemma [resolution_plain]). *)
Definition loaded_iconPack `{Host} (config : Config.t)
  : option (gmap string value) :=
  if truthy (Config.useIconPack config) then
    match import_emoji_icons with
    | Imported pack => Some pack
    | Rejected _ => None
    end
  else None.

Definition import_warning `{Host} (e : engine) (config : Config.t)
  : list (channel * list value) :=
  if usePrefix e && truthy (Config.useIconPack config) then
    match import_emoji_icons with
    | Imported _ => []
    | Rejected message =>
        [(Warning,
          [VStr "[ExtendedConsole] Could not load @ultimaserve/emoji-icons. Skipping icon pack.";
           message])]
    end
  else [].

Definition resolution `{Host} (e : engine) (config : Config.t)
  : outcome (gmap string value) :=
  if usePrefix e then
    resolve_all
      (prefixValue_for e (Config.prefix config) (loaded_iconPack config))
      (allMethodNames e) ∅
  else Ret (assign_all (λ _, VStr "") (allMethodNames e)).



(** A registered method that is called with [args] and does not throw
    forwards, before any prefix is put in front, the parts [parts] to the
    channel [ch]: a standard method its own arguments, a custom method the
    normalized return value of its handler, always to the plain channel. *)
Inductive forwards `{Host} (e : engine) (k : string) (args : list value)
  : channel → list value → Prop :=
  | forwards_standard :
      k ∈ standard_names → k ∉ wrappers e →
      forwards e k args (standard_channel k) args
  | forwards_custom (f : string) (r : value) :
      k ∈ wrappers e →
      entry (Config.customMethods (config e)) k = VFun f →
      call_function f args = Ret r →
      forwards e k args Plain (finalArgs_of r).

(** ** Sample host and configurations

    A host whose sink returns [undefined], whose icon pack is not installed,
    and with two user functions: [boom] throws, [audit] formats its two
    arguments. *)

Definition sample_host : Host :=
  {| _originalConsole := λ _ _, VUndef;
     call_function := λ f args,
       match f with
       | "boom" => Throw (VStr "boom")
       | "audit" =>
           match args with
           | [VStr u; VStr a] => Ret (VStr ("User " +:+ u +:+ " did " +:+ a))
           | _ => Ret VUndef
           end
       | _ => Ret VUndef
       end;
     import_emoji_icons := Rejected (VStr "Cannot find package '@ultimaserve/emoji-icons'");
     NODE_ENV_is_development := false |}.

(** [{ customMethods: { boom: () => { throw 'boom' } } }] *)
Definition config_boom : Config.t :=
  Config.Make VUndef VUndef VUndef ∅ VUndef VUndef [("boom", VFun "boom")].




(** [{ customMethods: { audit: (u, a) => `User ${u} did ${a}`, trace: 1 },
       prefix: { audit: '#', warn: 7 }, useIconPack: true, devMode: false }] *)
Definition config_audit : Config.t :=
  Config.Make VUndef VUndef VUndef
              {[ "audit" := VStr "#"; "warn" := VNum 7 ]}
              (VBool true) (VBool false)
              [("audit", VFun "audit"); ("trace", VNum 1)].


(** ** What start-up writes to the sink

    The three warnings of the class, and the lists the constructor and the
    binding loop emit for a [well_formed] configuration, read off their
    loops (lemma [started_sunk]).  In the constructor the test
    [this[methodName]] of an entry sees the instance without that entry's
    wrapper, the keys being distinct, and with its fields as the constructor
    set them, no wrapper having a reserved name. *)

Definition overwrite_warning (methodName : string) : channel * list value :=
  (Warning,
   [VStr ("[ExtendedConsole] Custom method '" +:+ methodName +:+
          "' might overwrite an existing method.")]).


Definition not_found_warning (method : string) : channel * list value :=
  (Warning,
   [VStr ("[ExtendedConsole] Method '" +:+ method +:+
          "' not found on instance during override.")]).






(** [{ devMode: 1, useDefaultPrefixes: false, defaultPrefix: 'APP:',
       customMethods: { toString: (...a) => a } }] *)
Definition config_plain : Config.t :=
  Config.Make VUndef (VBool false) (VStr "APP:") ∅ VUndef (VNum 1)
              [("toString", VFun "id")].


(** Configurations on which a claim fails: an override map with an own entry
    named [hasOwnProperty], and callable custom methods named like a member
    of the instance.  The handler [noop] returns [undefined]. *)

(** [{ prefix: { hasOwnProperty: '!', log: 'L' } }] *)
Definition config_own_hasOwnProperty : Config.t :=
  Config.Make VUndef VUndef VUndef
              {[ "hasOwnProperty" := VStr "!"; "log" := VStr "L" ]}
              VUndef VUndef [].








(** [{ devMode: false, customMethods: { isDev: () => {} } }] *)
Definition config_method_named_isDev : Config.t :=
  Config.Make VUndef VUndef VUndef ∅ VUndef (VBool false)
              [("isDev", VFun "noop")].

(** [{ customMethods: { prefix: () => {} } }] *)
Definition config_method_named_prefix : Config.t :=
  Config.Make VUndef VUndef VUndef ∅ VUndef VUndef [("prefix", VFun "noop")].

(** [{ devMode: true }] *)
Definition config_dev : Config.t :=
  Config.Make VUndef VUndef VUndef ∅ VUndef (VBool true) [].

(** ** Basic facts *)

Ltac monad_simpl :=
  unfold mbind, M_bind, mret, M_ret, read, modify, throw, lift, sink,
    assign_console in *; simpl in *.

(** Closes a decidable closed proposition by evaluation. *)
Ltac by_evaluation := apply (bool_decide_unpack _); vm_compute; exact I.

(** Closes a conjunction of closed equations by evaluating each. *)
Ltac evaluate_each :=
  repeat match goal with |- _ ∧ _ => split end; vm_compute; reflexivity.

(** Closes [x ∈ [a; b; ...]] for a literal list containing [x]. *)
Ltac in_list :=
  repeat first
    [ apply elem_of_cons; left; reflexivity
    | apply elem_of_cons; right ].



Section Dispatch.
Context `{Host}.

Lemma standard_invoke (k : string) (args : list value) (w : world) :
  k ∈ standard_names → k ∉ wrappers (this w) →
  invoke k args w =
    (Ret (_originalConsole (standard_channel k)
            (spread_prefixed (_getPrefix (this w) k) args)),
     sent (standard_channel k)
          (spread_prefixed (_getPrefix (this w) k) args) w).
Proof.
  intros Hk Hw. unfold invoke, this_get.
  rewrite bool_decide_false by assumption.
  unfold standard_names in Hk.
  repeat (apply elem_of_cons in Hk as [-> | Hk]; [reflexivity |]).
  by apply elem_of_nil in Hk.
Qed.

Lemma custom_invoke (k f : string) (args : list value) (w : world) :
  k ∈ wrappers (this w) →
  entry (Config.customMethods (config (this w))) k = VFun f →
  invoke k args w =
    match call_function f args with
    | Ret r =>
        (Ret (_originalConsole Plain
                (spread_prefixed (_getPrefix (this w) k) (finalArgs_of r))),
         sent Plain (spread_prefixed (_getPrefix (this w) k) (finalArgs_of r)) w)
    | Throw e => (Throw e, w)
    end.
Proof.
  intros Hk Hf. unfold invoke, this_get.
  rewrite bool_decide_true by assumption.
  unfold custom_method. monad_simpl. rewrite Hf. simpl.
  destruct (call_function f args); reflexivity.
Qed.

End Dispatch.

(** ** The loops *)

Lemma elem_of_Set_from (seen l : list string) (x : string) :
  x ∈ Set_from seen l ↔ x ∈ l ∧ x ∉ seen.
Proof.
  revert seen. induction l as [|y l IH]; intros seen; simpl.
  - split; [intros Hx; by apply elem_of_nil in Hx | intros [Hx _]; by apply elem_of_nil in Hx].
  - case_bool_decide as Hy.
    + rewrite IH, elem_of_cons. split; [tauto |].
      intros [[-> | Hx] Hn]; [contradiction | tauto].
    + rewrite !elem_of_cons, IH, elem_of_cons. split.
      * intros [-> | [Hx Hn]]; [tauto |]. split; [tauto |]. intros Hs. apply Hn. tauto.
      * intros [[-> | Hx] Hn]; [tauto |].
        destruct (decide (x = y)) as [-> | Hne]; [tauto |].
        right. split; [assumption |]. intros [? | ?]; [congruence | contradiction].
Qed.


Section Loops.
Context `{Host}.

Lemma standard_is_function (e : engine) (k : string) :
  k ∈ standard_names → member_is_function (this_get e k) = true.
Proof.
  intros Hk. unfold this_get. case_bool_decide; [reflexivity |].
  unfold standard_names in Hk.
  repeat (apply elem_of_cons in Hk as [-> | Hk]; [reflexivity |]).
  by apply elem_of_nil in Hk.
Qed.

Lemma builtInMethods_standard (e : engine) : builtInMethods e = standard_names.
Proof.
  unfold builtInMethods, ExtendedConsole_prototype. simpl.
  rewrite !standard_is_function
    by (unfold standard_names; in_list).
  reflexivity.
Qed.

Lemma elem_of_allMethodNames (e : engine) (m : string) :
  m ∈ allMethodNames e ↔ m ∈ standard_names ∨ m ∈ _customMethodNames e.
Proof.
  unfold allMethodNames. rewrite elem_of_Set_from, builtInMethods_standard, elem_of_app.
  split; [tauto |]. intros Hm. split; [assumption |]. apply not_elem_of_nil.
Qed.

(** Under a name that is not reserved a wrapper replaces no field. *)
Lemma add_wrapper_plain (x : string) (e : engine) :
  x ∉ reserved_names →
  add_wrapper x e = set_wrappers ({[ x ]} ∪ wrappers e) e.
Proof.
  intros Hx. unfold add_wrapper, set_wrappers.
  destruct (String.eqb_spec x "usePrefix") as [-> | _];
    [exfalso; apply Hx; unfold reserved_names; in_list |].
  destruct (String.eqb_spec x "useDefaultPrefixes") as [-> | _];
    [exfalso; apply Hx; unfold reserved_names; in_list |].
  destruct (String.eqb_spec x "isDev") as [-> | _];
    [exfalso; apply Hx; unfold reserved_names; in_list |].
  by rewrite !orb_false_r.
Qed.

Lemma set_wrappers_add (s : gset string) (x : string) (e : engine) :
  x ∉ reserved_names →
  set_wrappers s (add_wrapper x e) = set_wrappers s e.
Proof. intros Hx. by rewrite add_wrapper_plain. Qed.

Lemma set_wrappers_ext (s s' : gset string) (e : engine) :
  s ≡ s' → set_wrappers s e = set_wrappers s' e.
Proof. intros ->%leibniz_equiv. reflexivity. Qed.

Lemma set_wrappers_id (e : engine) : set_wrappers (wrappers e) e = e.
Proof. destruct e; reflexivity. Qed.

Lemma for_of_cons {A} (x : A) (l : list A) (body : A → M unit) (w : world) :
  for_of (x :: l) body w =
    match body x w with
    | (Ret _, w') => for_of l body w'
    | (Throw e, w') => (Throw e, w')
    end.
Proof. reflexivity. Qed.

Lemma define_custom_method_step
    (cfg : Config.t) (x : string) (e : engine)
    (c : gmap string binding) (out : list (channel * list value)) :
  define_custom_method cfg x (World e c out) =
    if is_function (entry (Config.customMethods cfg) x) then
      (Ret tt,
       World (add_wrapper x e) c
             (if member_truthy (this_get e x) then
                out ++ [(Warning,
                         [VStr ("[ExtendedConsole] Custom method '" +:+ x +:+
                                "' might overwrite an existing method.")])]
              else out))
    else
      (Ret tt,
       World e c
             (out ++ [(Warning,
                       [VStr ("[ExtendedConsole] Custom method '" +:+ x +:+
                              "' is not a function and will be ignored.")])])).
Proof.
  unfold define_custom_method.
  destruct (is_function (entry (Config.customMethods cfg) x)); monad_simpl;
    [destruct (member_truthy (this_get e x)) |]; reflexivity.
Qed.

(** The constructor's loop installs a wrapper for exactly the callable
    names and warns about every other one. *)
Lemma constructor_loop (cfg : Config.t) (names : list string) :
  (∀ k, k ∈ names →
        is_function (entry (Config.customMethods cfg) k) = true →
        k ∉ reserved_names) →
  ∀ (e : engine) (c : gmap string binding) (out : list (channel * list value)),
  ∃ ext,
    for_of names (define_custom_method cfg) (World e c out) =
      (Ret tt,
       World (set_wrappers
                (list_to_set
                   (List.filter
                      (λ k, is_function (entry (Config.customMethods cfg) k))
                      names) ∪ wrappers e) e)
             c (out ++ ext)) ∧
    ∀ k, k ∈ names →
         is_function (entry (Config.customMethods cfg) k) = false →
         (Warning,
          [VStr ("[ExtendedConsole] Custom method '" +:+ k +:+
                 "' is not a function and will be ignored.")]) ∈ ext.
Proof.
  induction names as [|x l IH]; intros Hplain e c out.
  - exists []. split.
    + simpl. unfold mret, M_ret. rewrite app_nil_r.
      rewrite (set_wrappers_ext _ (wrappers e)) by set_solver.
      by rewrite set_wrappers_id.
    + intros k Hk. by apply elem_of_nil in Hk.
  - assert (∀ k, k ∈ l →
                 is_function (entry (Config.customMethods cfg) k) = true →
                 k ∉ reserved_names) as Hl
      by (intros k Hk; apply Hplain, elem_of_cons; by right).
    specialize (IH Hl).
    rewrite for_of_cons, define_custom_method_step. simpl List.filter.
    destruct (is_function (entry (Config.customMethods cfg) x)) eqn:Hx.
    + assert (x ∉ reserved_names) as Hxr
        by (apply Hplain; [apply elem_of_cons; by left | exact Hx]).
      destruct (member_truthy (this_get e x));
        edestruct (IH (add_wrapper x e) c) as (ext & Heq & Hw); rewrite Heq;
        rewrite (set_wrappers_add _ _ _ Hxr).
      * eexists (_ :: ext). split.
        -- rewrite <- app_assoc. simpl. do 2 f_equal.
           apply set_wrappers_ext. set_solver.
        -- intros k [-> | Hk]%elem_of_cons Hk'; [congruence |].
           apply elem_of_cons. right. by apply Hw.
      * exists ext. split.
        -- do 2 f_equal. apply set_wrappers_ext. set_solver.
        -- intros k [-> | Hk]%elem_of_cons Hk'; [congruence |]. by apply Hw.
    + edestruct (IH e c) as (ext & Heq & Hw); rewrite Heq.
      eexists (_ :: ext). split.
      * rewrite <- app_assoc. reflexivity.
      * intros k [-> | Hk]%elem_of_cons Hk'.
        -- apply elem_of_cons. by left.
        -- apply elem_of_cons. right. by apply Hw.
Qed.

Lemma new_ExtendedConsole_spec (cfg : Config.t) :
  Forall (λ k, k ∉ reserved_names) (callable_names cfg) →
  ∃ out,
    new_ExtendedConsole cfg =
      (Ret tt,
       World (set_wrappers (list_to_set (callable_names cfg)) (fields cfg)) ∅ out) ∧
    ∀ k, k ∈ (Config.customMethods cfg).*1 →
         is_function (entry (Config.customMethods cfg) k) = false →
         (Warning,
          [VStr ("[ExtendedConsole] Custom method '" +:+ k +:+
                 "' is not a function and will be ignored.")]) ∈ out.
Proof.
  intros Hplain. unfold new_ExtendedConsole, constructor. monad_simpl.
  assert (∀ k, k ∈ (Config.customMethods cfg).*1 →
               is_function (entry (Config.customMethods cfg) k) = true →
               k ∉ reserved_names) as Hnames.
  { intros k Hk Hf. rewrite Forall_forall in Hplain. apply Hplain.
    unfold callable_names.
    rewrite list_elem_of_In, filter_In, <- list_elem_of_In. tauto. }
  destruct (constructor_loop cfg (Config.customMethods cfg).*1 Hnames
              (fields cfg) ∅ [])
    as (ext & Heq & Hw).
  exists ext. split; [| exact Hw].
  rewrite Heq. simpl. do 2 f_equal. apply set_wrappers_ext.
  unfold callable_names. set_solver.
Qed.

Lemma override_method_step
    (k : string) (e : engine) (c : gmap string binding)
    (out : list (channel * list value)) :
  override_method k (World e c out) =
    if member_is_function (this_get e k) then
      (Ret tt, World e (<[ k := BoundMethod k ]> c) out)
    else
      (Ret tt,
       World e c
             (out ++ [(Warning,
                       [VStr ("[ExtendedConsole] Method '" +:+ k +:+
                              "' not found on instance during override.")])])).
Proof.
  unfold override_method. monad_simpl.
  destruct (member_is_function (this_get e k)); reflexivity.
Qed.

(** The binding loop assigns [console[k]] exactly for the names that are
    functions on the instance. *)
Lemma override_loop (names : list string) (e : engine) :
  ∀ (c : gmap string binding) (out : list (channel * list value)),
  ∃ c' ext,
    for_of names override_method (World e c out) =
      (Ret tt, World e c' (out ++ ext)) ∧
    ∀ k, c' !! k =
         if bool_decide (k ∈ names) && member_is_function (this_get e k)
         then Some (BoundMethod k) else c !! k.
Proof.
  induction names as [|x l IH]; intros c out.
  - exists c, []. split.
    + simpl. unfold mret, M_ret. by rewrite app_nil_r.
    + intros k. rewrite bool_decide_false by apply not_elem_of_nil. reflexivity.
  - rewrite for_of_cons, override_method_step.
    destruct (member_is_function (this_get e x)) eqn:Hx.
    + edestruct (IH (<[ x := BoundMethod x ]> c) out) as (c' & ext & Heq & Hc).
      exists c', ext. split; [exact Heq |].
      intros k. rewrite Hc. destruct (decide (k = x)) as [-> | Hne].
      * rewrite Hx, lookup_insert_eq.
        rewrite (bool_decide_true (x ∈ x :: l)) by (apply elem_of_cons; tauto).
        simpl. by destruct (bool_decide (x ∈ l)).
      * rewrite lookup_insert_ne by congruence.
        rewrite (bool_decide_ext (k ∈ x :: l) (k ∈ l)); [reflexivity |].
        rewrite elem_of_cons. tauto.
    + edestruct (IH c) as (c' & ext & Heq & Hc). rewrite Heq.
      eexists c', (_ :: ext). split.
      * rewrite <- app_assoc. reflexivity.
      * intros k. rewrite Hc. destruct (decide (k = x)) as [-> | Hne].
        -- rewrite Hx, !andb_false_r. reflexivity.
        -- rewrite (bool_decide_ext (k ∈ x :: l) (k ∈ l)); [reflexivity |].
           rewrite elem_of_cons. tauto.
Qed.

Lemma overrideConsoleMethods_spec (w : world) :
  ∃ c' ext,
    overrideConsoleMethods w = (Ret tt, World (this w) c' (sunk w ++ ext)) ∧
    ∀ k, c' !! k =
         if bool_decide (k = "noPrefix") then Some PrefixSuppressor
         else if bool_decide (k = "dev") then Some DevGate
         else if bool_decide (k ∈ allMethodNames (this w)) &&
                 member_is_function (this_get (this w) k)
         then Some (BoundMethod k) else console w !! k.
Proof.
  unfold overrideConsoleMethods. destruct w as [e c out].
  destruct (override_loop (allMethodNames e) e c out) as (c' & ext & Heq & Hc).
  exists (<[ "noPrefix" := PrefixSuppressor ]> (<[ "dev" := DevGate ]> c')), ext.
  split.
  - unfold allMethodNames in Heq. monad_simpl. rewrite Heq. reflexivity.
  - intros k. simpl. case_bool_decide as Hn.
    + subst k. by rewrite lookup_insert_eq.
    + rewrite lookup_insert_ne by congruence. case_bool_decide as Hd.
      * subst k. by rewrite lookup_insert_eq.
      * rewrite lookup_insert_ne by congruence. apply Hc.
Qed.


(** A loop whose first turn throws stores nothing. *)
Lemma resolve_all_throws
    (f : string → outcome value) (x : string) (l : list string) (err : value)
    (acc : gmap string value) :
  f x = Throw err → resolve_all f (x :: l) acc = Throw err.
Proof. intros Hx. simpl. by rewrite Hx. Qed.



(** [_initPrefix]: the import warning if any, then either the assignment of
    the resolved map or the exception of the loop, with [this.prefix] as it
    was. *)
Lemma initPrefix_spec (cfg : Config.t) (w : world) :
  _initPrefix cfg w =
    match resolution (this w) cfg with
    | Ret resolvedPrefixMap =>
        (Ret tt,
         World (assign_prefix resolvedPrefixMap (this w))
               (console w)
               (sunk w ++ import_warning (this w) cfg))
    | Throw err =>
        (Throw err,
         World (this w) (console w) (sunk w ++ import_warning (this w) cfg))
    end.
Proof.
  unfold _initPrefix, resolution, import_warning, loaded_iconPack.
  monad_simpl. destruct w as [e c out]; simpl.
  destruct (usePrefix e); simpl.
  - destruct (truthy (Config.useIconPack cfg)); simpl.
    + destruct import_emoji_icons; simpl;
        match goal with
        | |- context [resolve_all ?f ?l ?a] => destruct (resolve_all f l a)
        end; unfold set_this; simpl; rewrite ?app_nil_r; reflexivity.
    + match goal with
      | |- context [resolve_all ?f ?l ?a] => destruct (resolve_all f l a)
      end; unfold set_this; simpl; rewrite ?app_nil_r; reflexivity.
  - unfold set_this; simpl. by rewrite app_nil_r.
Qed.


Lemma allMethodNames_assign_prefix (p : gmap string value) (e : engine) :
  allMethodNames (assign_prefix p e) = allMethodNames e.
Proof. unfold allMethodNames. by rewrite !builtInMethods_standard. Qed.
End Loops.

(** ** From construction to the bound state *)

Section Started.
Context `{Host}.

(** [init] in general: when the resolution throws, [init] rejects with the
    instance and the global bindings as they were; otherwise it stores the
    resolved map and binds the methods. *)
Lemma init_outcome (w : world) :
  let cfg := this_config (this w) in
  match resolution (this w) cfg with
  | Ret resolvedPrefixMap =>
      let e1 := assign_prefix resolvedPrefixMap (this w) in
      ∃ c ext,
        init w =
          (Ret tt,
           World e1 c (sunk w ++ import_warning (this w) cfg ++ ext)) ∧
        ∀ k, c !! k =
             if bool_decide (k = "noPrefix") then Some PrefixSuppressor
             else if bool_decide (k = "dev") then Some DevGate
             else if bool_decide (k ∈ allMethodNames (this w)) &&
                     member_is_function (this_get e1 k)
             then Some (BoundMethod k) else console w !! k
  | Throw err =>
      init w =
        (Throw err,
         World (this w) (console w) (sunk w ++ import_warning (this w) cfg))
  end.
Proof.
  intros cfg. pose proof (initPrefix_spec cfg w) as Hp.
  destruct (resolution (this w) cfg) as [p | err].
  - match type of Hp with
    | _ = (_, ?w1) =>
        destruct (overrideConsoleMethods_spec w1) as (c & ext & Heq & Hc)
    end.
    exists c, ext. split.
    + unfold init. monad_simpl. fold cfg. rewrite Hp, Heq. simpl.
      by rewrite <- app_assoc.
    + intros k. rewrite Hc. simpl. by rewrite allMethodNames_assign_prefix.
  - unfold init. monad_simpl. fold cfg. by rewrite Hp.
Qed.


(** What [init] does to the instance, whether it returns or throws. *)
Lemma init_this (w : world) :
  this (init w).2 = this w ∨
  ∃ p, this (init w).2 = assign_prefix p (this w).
Proof.
  pose proof (init_outcome w) as Hi. simpl in Hi.
  destruct (resolution (this w) (this_config (this w))) as [p | err].
  - destruct Hi as (c & ext & Hi & _). rewrite Hi. right. by exists p.
  - rewrite Hi. by left.
Qed.

Lemma reserved_not_wrapped (cfg : Config.t) (k : string) :
  Forall (λ k, k ∉ reserved_names) (callable_names cfg) →
  k ∈ reserved_names →
  k ∉ (list_to_set (callable_names cfg) : gset string).
Proof.
  intros Hplain Hk Hin. rewrite elem_of_list_to_set in Hin.
  rewrite Forall_forall in Hplain. by apply (Hplain k).
Qed.

End Started.

(** ** The dispatch wrapper *)

Section DispatchWrapper.
Context `{Host}.


Lemma invoke_forwards
    (k : string) (args : list value) (w : world) (ch : channel)
    (parts : list value) :
  forwards (this w) k args ch parts →
  invoke k args w =
    (Ret (_originalConsole ch (spread_prefixed (_getPrefix (this w) k) parts)),
     sent ch (spread_prefixed (_getPrefix (this w) k) parts) w).
Proof.
  intros [Hk Hw | f r Hk Hf Hr].
  - by apply standard_invoke.
  - rewrite (custom_invoke k f) by assumption. by rewrite Hr.
Qed.

Lemma standard_method_names (k : string) (f : list value → M value) :
  standard_method k = Some f → k ∈ standard_names.
Proof.
  unfold standard_method.
  repeat match goal with
         | |- context [match ?s with EmptyString => _ | String _ _ => _ end] =>
             is_var s; destruct s
         | |- context [match ?a with Ascii.Ascii _ _ _ _ _ _ _ _ => _ end] =>
             is_var a; destruct a
         | |- context [if ?b then _ else _] => is_var b; destruct b
         end;
    try discriminate; intros _; unfold standard_names; in_list.
Qed.

(** A call through the instance writes to the sink at most; the instance
    and the global bindings stay as they are. *)
Lemma invoke_preserves_this
    (k : string) (args : list value) (w w' : world) (o : outcome value) :
  invoke k args w = (o, w') → this w' = this w ∧ console w' = console w.
Proof.
  unfold invoke. destruct (this_get (this w) k) as [| | |v].
  - unfold custom_method. monad_simpl.
    destruct (entry (Config.customMethods (config (this w))) k);
      simpl; try (intros [= <- <-]; tauto).
    destruct (call_function f args); simpl; intros [= <- <-]; tauto.
  - destruct (standard_method k) as [f|] eqn:Hf.
    + pose proof (standard_method_names k f Hf) as Hk.
      unfold standard_names in Hk.
      repeat (apply elem_of_cons in Hk as [-> | Hk];
              [injection Hf as <-; intros [= <- <-]; tauto |]).
      by apply elem_of_nil in Hk.
    + monad_simpl. intros [= <- <-]; tauto.
  - monad_simpl. intros [= <- <-]; tauto.
  - destruct v; monad_simpl; intros [= <- <-]; tauto.
Qed.
End DispatchWrapper.

Section Surfaces.
Context `{Host}.



(** The suppressor saves the flag, sets it, calls the method and, when the
    call returns, restores the saved value. *)
Lemma noPrefix_unfold (prop : string) (args : list value) (w : world) :
  member_is_function (this_get (this w) prop) = true →
  noPrefix prop args w =
    match invoke prop args
            (set_this (set_temporarilyDisablePrefix (VBool true)) w) with
    | (Ret result, w') =>
        (Ret result,
         set_this (set_temporarilyDisablePrefix
                     (_temporarilyDisablePrefix (this w))) w')
    | (Throw e, w') => (Throw e, w')
    end.
Proof.
  intros Hf. unfold noPrefix. monad_simpl. rewrite Hf.
  destruct (invoke prop args
              (set_this (set_temporarilyDisablePrefix (VBool true)) w))
    as [[result | e] w']; reflexivity.
Qed.

(** Whatever makes the inner call throw, the flag stays [true]. *)
Lemma noPrefix_throw (prop : string) (args : list value) (w w' : world) (e : value) :
  member_is_function (this_get (this w) prop) = true →
  noPrefix prop args w = (Throw e, w') →
  _temporarilyDisablePrefix (this w') = VBool true.
Proof.
  intros Hf. rewrite (noPrefix_unfold _ _ _ Hf).
  destruct (invoke prop args
              (set_this (set_temporarilyDisablePrefix (VBool true)) w))
    as [[result | e'] w1] eqn:Hi; [discriminate |].
  intros [= <- <-].
  apply invoke_preserves_this in Hi as [-> _]. reflexivity.
Qed.
End Surfaces.

(** ** Properties of the resolution *)

Section Resolution.
Context `{Host}.






End Resolution.

(** ** The claims

    The general theorems that start from a configuration assume
    [well_formed]: no callable custom method has a reserved name, so every
    wrapper is a new property of the instance.  Those that need [init] to
    return also assume that prefixing is disabled or that the override map
    has no own entry named [hasOwnProperty].  The configurations on which a
    claim fails are [covered] ones, some of them outside [well_formed].  The
    theorems about a call are stated for every state of the instance. *)

(** C1 — Prefix suppressor, exception path.  The suppressor restores the
    saved flag only after the inner call has returned.  Evaluated on
    [{ customMethods: { boom } }] where [boom] throws: before the call the
    flag is [undefined] and [log("hi")] carries the prefix ["> "]; the call
    [noPrefix().boom()] throws, the flag stays [true], and the next
    [log("hi")] reaches the sink with no prefix. *)
Theorem noPrefix_leaves_flag_set_when_call_throws :
  let w := (started (H := sample_host) config_boom).2 in
  let r := noPrefix (H := sample_host) "boom" [] w in
  well_formed config_boom ∧
  _temporarilyDisablePrefix (this w) = VUndef ∧
  sunk (console_call (H := sample_host) "log" [VStr "hi"] w).2 =
    sunk w ++ [(Plain, [VStr "> "; VStr "hi"])] ∧
  r.1 = Throw (VStr "boom") ∧
  _temporarilyDisablePrefix (this r.2) = VBool true ∧
  sunk (console_call (H := sample_host) "log" [VStr "hi"] r.2).2 =
    sunk r.2 ++ [(Plain, [VStr "hi"])].
Proof.
  intros w r. split; [split; by_evaluation |].
  repeat split; reflexivity.
Qed.









(** What [init] leaves alone, whether it returns or throws. *)
Lemma init_keeps `{Host} (w : world) :
  isDev (this (init w).2) = isDev (this w) ∧
  config (this (init w).2) = config (this w) ∧
  _temporarilyDisablePrefix (this (init w).2) = _temporarilyDisablePrefix (this w) ∧
  ∀ k, k ≠ "prefix" → k ∈ wrappers (this (init w).2) ↔ k ∈ wrappers (this w).
Proof.
  destruct (init_this w) as [-> | [p ->]].
  - repeat split; tauto.
  - repeat split; try reflexivity; simpl; set_solver.
Qed.

(** C5 (as amended) — Mode gate.  Take a configuration in which no callable
    custom method has the name of a member of the instance
    ([reserved_names]).  With [devMode: false] development mode is off
    after construction and stays off through [init], and every call through
    [dev()] reaches no sink and returns [undefined], the world is left as
    it was; with [devMode: true] it is on, and a call through [dev()] is
    the same computation as the call made on the instance directly, hence
    the same sink invocation (channel, prefix and arguments). *)
Theorem dev_gate `{Host} (cfg : Config.t) (b : bool) :
  well_formed cfg →
  Config.devMode cfg = VBool b →
  ∃ w0,
    new_ExtendedConsole cfg = (Ret tt, w0) ∧
    isDev (this w0) = b ∧
    isDev (this (init w0).2) = b ∧
    ∀ (w' : world) (prop : string) (args : list value),
      isDev (this w') = b →
      dev prop args w' =
        if b then invoke prop args w' else (Ret VUndef, w').
Proof.
  intros [_ Hplain] Hd.
  destruct (new_ExtendedConsole_spec cfg Hplain) as (out0 & Hnew & _).
  assert (isDev (set_wrappers (list_to_set (callable_names cfg)) (fields cfg))
          = b) as Hb.
  { unfold fields; simpl. by rewrite Hd. }
  eexists. split; [exact Hnew |]. split; [exact Hb |]. split.
  - destruct (init_keeps
                (World (set_wrappers (list_to_set (callable_names cfg)) (fields cfg))
                       ∅ out0)) as [Hi _].
    rewrite Hi. exact Hb.
  - intros w' prop args Hw'. unfold dev. monad_simpl.
    rewrite Hw'. destruct b; reflexivity.
Qed.

Lemma dev_gate_witness :
  (well_formed config_audit ∧
   Config.devMode config_audit = VBool false ∧
   ∃ w0,
     new_ExtendedConsole (H := sample_host) config_audit = (Ret tt, w0) ∧
     isDev (this w0) = false ∧
     isDev (this (init (H := sample_host) w0).2) = false ∧
     ∀ (w' : world) (prop : string) (args : list value),
       isDev (this w') = false →
       dev (H := sample_host) prop args w' = (Ret VUndef, w')) ∧
  (well_formed config_dev ∧
   Config.devMode config_dev = VBool true ∧
   ∃ w0,
     new_ExtendedConsole (H := sample_host) config_dev = (Ret tt, w0) ∧
     isDev (this w0) = true ∧
     isDev (this (init (H := sample_host) w0).2) = true ∧
     ∀ (w' : world) (prop : string) (args : list value),
       isDev (this w') = true →
       dev (H := sample_host) prop args w' = invoke (H := sample_host) prop args w').
Proof.
  assert (well_formed config_audit) as Hwf by (split; by_evaluation).
  assert (well_formed config_dev) as Hwf' by (split; by_evaluation).
  split.
  - split; [exact Hwf |]. split; [reflexivity |].
    exact (dev_gate (H := sample_host) config_audit false Hwf eq_refl).
  - split; [exact Hwf' |]. split; [reflexivity |].
    exact (dev_gate (H := sample_host) config_dev true Hwf' eq_refl).
Defined.

(** C5 as stated fails: with
    [{ devMode: false, customMethods: { isDev } }] the constructor stores
    the wrapper in [this.isDev]; [dev()] finds it truthy and returns the
    live proxy, so [dev().log("x")] reaches the plain channel. *)
Lemma devMode_false_undone_by_method_named_isDev :
  let cfg := config_method_named_isDev in
  let r := started (H := sample_host) cfg in
  covered cfg ∧
  Config.devMode cfg = VBool false ∧
  r.1 = Ret tt ∧
  sunk r.2 = [] ∧
  sunk (dev (H := sample_host) "log" [VStr "x"] r.2).2 =
    [(Plain, [VStr "> "; VStr "x"])].
Proof.
  intros cfg r. split; [split; [| split]; by_evaluation |].
  evaluate_each.
Qed.

(** C6 (as amended) — Custom method adapter.  For every entry of
    [customMethods] whose value is a function and whose name is not the
    name of a member of the instance ([reserved_names]): the constructor
    installs a wrapper under the name, [init] keeps it, and in every state
    of the instance that has the wrapper and the configuration a call of
    the method applies the handler to the call's raw arguments; a returned
    array is used as the list of parts in order, any other returned value
    becomes the one-element list; that list, with the resolved prefix put in
    front by the dispatch rule, goes to the plain channel of the sink,
    whatever the method is called.  A handler that throws reaches no
    sink. *)
Theorem custom_method_forwards_normalized_parts `{Host}
    (cfg : Config.t) (k f : string) :
  well_formed cfg →
  k ∈ (Config.customMethods cfg).*1 →
  entry (Config.customMethods cfg) k = VFun f →
  ∃ w0,
    new_ExtendedConsole cfg = (Ret tt, w0) ∧
    (k ∈ wrappers (this w0) ∧ config (this w0) = cfg) ∧
    (k ∈ wrappers (this (init w0).2) ∧ config (this (init w0).2) = cfg) ∧
    ∀ (w' : world) (args : list value),
      k ∈ wrappers (this w') →
      config (this w') = cfg →
      match call_function f args with
      | Ret r =>
          ∃ parts,
            (∀ elems, r = VArr elems → parts = elems) ∧
            ((∀ elems, r ≠ VArr elems) → parts = [r]) ∧
            invoke k args w' =
              (Ret (_originalConsole Plain
                      (spread_prefixed (_getPrefix (this w') k) parts)),
               sent Plain (spread_prefixed (_getPrefix (this w') k) parts) w')
      | Throw e => invoke k args w' = (Throw e, w')
      end.
Proof.
  intros [_ Hplain] Hk Hf.
  destruct (new_ExtendedConsole_spec cfg Hplain) as (out0 & Hnew & _).
  assert (k ∈ (list_to_set (callable_names cfg) : gset string)) as Hin.
  { rewrite elem_of_list_to_set. unfold callable_names.
    rewrite list_elem_of_In, filter_In, <- list_elem_of_In.
    split; [exact Hk |]. by rewrite Hf. }
  assert (k ≠ "prefix") as Hne.
  { intros ->. rewrite Forall_forall in Hplain.
    rewrite elem_of_list_to_set in Hin.
    apply (Hplain "prefix" Hin). unfold reserved_names. in_list. }
  eexists. split; [exact Hnew |]. split; [split; [exact Hin | reflexivity] |].
  split.
  - destruct (init_keeps
                (World (set_wrappers (list_to_set (callable_names cfg)) (fields cfg))
                       ∅ out0)) as (_ & Hc & _ & Hw).
    split; [by apply Hw | by rewrite Hc].
  - intros w' args Hw Hc.
    rewrite (custom_invoke k f) by (rewrite ?Hc; assumption).
    destruct (call_function f args) as [r | e]; [| reflexivity].
    exists (finalArgs_of r). split; [| split].
    + intros elems ->. reflexivity.
    + intros Hr. destruct r; try reflexivity. by destruct (Hr elems).
    + reflexivity.
Qed.

Lemma custom_method_forwards_normalized_parts_witness :
  well_formed config_audit ∧
  "audit" ∈ (Config.customMethods config_audit).*1 ∧
  entry (Config.customMethods config_audit) "audit" = VFun "audit" ∧
  sunk (invoke (H := sample_host) "audit" [VStr "Alice"; VStr "Login"]
          (started (H := sample_host) config_audit).2).2 =
    sunk (started (H := sample_host) config_audit).2 ++
    [(Plain, [VStr "# "; VStr "User Alice did Login"])] ∧
  ∃ w0,
    new_ExtendedConsole (H := sample_host) config_audit = (Ret tt, w0) ∧
    ("audit" ∈ wrappers (this w0) ∧ config (this w0) = config_audit) ∧
    ("audit" ∈ wrappers (this (init (H := sample_host) w0).2) ∧
     config (this (init (H := sample_host) w0).2) = config_audit) ∧
    ∀ (w' : world) (args : list value),
      "audit" ∈ wrappers (this w') →
      config (this w') = config_audit →
      match call_function (Host := sample_host) "audit" args with
      | Ret r =>
          ∃ parts,
            (∀ elems, r = VArr elems → parts = elems) ∧
            ((∀ elems, r ≠ VArr elems) → parts = [r]) ∧
            invoke (H := sample_host) "audit" args w' =
              (Ret VUndef,
               sent Plain (spread_prefixed (_getPrefix (this w') "audit") parts) w')
      | Throw e => invoke (H := sample_host) "audit" args w' = (Throw e, w')
      end.
Proof.
  assert (well_formed config_audit) as Hwf by (split; by_evaluation).
  assert ("audit" ∈ (Config.customMethods config_audit).*1) as Hk
    by (simpl; in_list).
  split; [exact Hwf |]. split; [exact Hk |]. split; [reflexivity |].
  split; [vm_compute; reflexivity |].
  exact (custom_method_forwards_normalized_parts (H := sample_host)
           config_audit "audit" "audit" Hwf Hk eq_refl).
Defined.

(** C6 as stated fails: with [{ customMethods: { prefix } }] the handler is
    callable and the constructor installs its wrapper in [this.prefix]
    (and warns), but [_initPrefix] assigns the resolved map to
    [this.prefix]: after [init] the identifier holds an object, the binding
    loop reports it as not found, nothing is bound under it, and a call
    throws without the handler being applied or the sink invoked. *)
Lemma method_named_prefix_is_lost_at_init :
  let cfg := config_method_named_prefix in
  let r0 := new_ExtendedConsole (H := sample_host) cfg in
  let r := started (H := sample_host) cfg in
  covered cfg ∧
  is_function (entry (Config.customMethods cfg) "prefix") = true ∧
  r0.1 = Ret tt ∧
  this_get (this r0.2) "prefix" = Wrapper ∧
  r.1 = Ret tt ∧
  sunk r.2 = [overwrite_warning "prefix"; not_found_warning "prefix"] ∧
  this_get (this r.2) "prefix" = ObjectField ∧
  console r.2 !! "prefix" = None ∧
  (invoke (H := sample_host) "prefix" [VStr "x"] r.2).1 =
    Throw (TypeError "not a function") ∧
  sunk (invoke (H := sample_host) "prefix" [VStr "x"] r.2).2 = sunk r.2.
Proof.
  intros cfg r0 r. split; [split; [| split]; by_evaluation |].
  evaluate_each.
Qed.







(** C9 — Suppression isolation, after a throwing call.  Evaluated on
    [{ customMethods: { boom } }] where [boom] throws.  The call
    [noPrefix().boom()] throws and leaves the flag [true] (C1).  Then two
    consecutive calls of the registered method [log], neither of which
    throws: [noPrefix().log("a")] reaches the sink with no prefix, and
    restores the flag to the value it saved, which is [true]; the plain
    call [log("b")] that follows reaches the sink as [("b")], without the
    resolved prefix ["> "] of [log]. *)
Theorem suppression_not_isolated_after_throwing_call :
  let w := (started (H := sample_host) config_boom).2 in
  let thrown := noPrefix (H := sample_host) "boom" [] w in
  let first := noPrefix (H := sample_host) "log" [VStr "a"] thrown.2 in
  let second := console_call (H := sample_host) "log" [VStr "b"] first.2 in
  well_formed config_boom ∧
  thrown.1 = Throw (VStr "boom") ∧
  sunk thrown.2 = sunk w ∧
  first.1 = Ret VUndef ∧
  sunk first.2 = sunk w ++ [(Plain, [VStr "a"])] ∧
  _temporarilyDisablePrefix (this first.2) = VBool true ∧
  prefix (this first.2) !! "log" = Some (VStr ">") ∧
  second.1 = Ret VUndef ∧
  sunk second.2 = sunk w ++ [(Plain, [VStr "a"]); (Plain, [VStr "b"])].
Proof.
  intros w thrown first second. split; [split; by_evaluation |].
  evaluate_each.
Qed.




(** ** Further properties of the class

    Helper lemmas first, then the properties, numbered X1, X2, ...  Those
    that start from a configuration assume [well_formed]; where [init] has
    to return they also assume, as X2 does, that prefixing is disabled or
    that the override map has no own entry named [hasOwnProperty] (X5 to X8
    are about enabled prefixing and assume the latter). *)

Lemma NoDup_Set_from (seen l : list string) : NoDup (Set_from seen l).
Proof.
  revert seen. induction l as [|x l IH]; intros seen; simpl.
  - constructor.
  - case_bool_decide; [apply IH |].
    constructor; [| apply IH].
    rewrite elem_of_Set_from, elem_of_cons. tauto.
Qed.

Lemma Set_from_app_fresh (l1 l2 seen : list string) :
  NoDup l1 → (∀ x, x ∈ l1 → x ∉ seen) →
  Set_from seen (l1 ++ l2) = l1 ++ Set_from (rev l1 ++ seen) l2.
Proof.
  revert seen. induction l1 as [|x l1 IH]; intros seen Hnd Hfresh; simpl.
  - reflexivity.
  - apply NoDup_cons in Hnd as [Hx Hnd].
    rewrite bool_decide_false by (apply Hfresh, elem_of_cons; tauto).
    f_equal. rewrite IH.
    + by rewrite <- app_assoc.
    + exact Hnd.
    + intros y Hy [-> | Hs]%elem_of_cons; [contradiction |].
      apply (Hfresh y); [apply elem_of_cons; tauto | exact Hs].
Qed.

Lemma NoDup_standard_names : NoDup standard_names.
Proof. by_evaluation. Qed.



Lemma getPrefix_empty_map (e : engine) (k : string) :
  prefix e = ∅ → _getPrefix e k = "".
Proof.
  intros He. unfold _getPrefix, get. rewrite He, lookup_empty.
  destruct (truthy (_temporarilyDisablePrefix e)); [reflexivity |].
  unfold Object_prototype.
  destruct (String.eqb k "constructor"); [reflexivity |].
  by case_bool_decide.
Qed.


Section StartUp.
Context `{Host}.








End StartUp.

(** X1 — Method registry.  The list of identifiers [_initPrefix] and
    [overrideConsoleMethods] iterate over holds the nine logging methods of
    the class first, in declaration order, then the custom keys, and no
    identifier twice: a custom key that repeats a built-in name adds no
    second entry, and wrappers installed over built-in names do not remove
    them. *)
Theorem registry_lists_each_identifier_once (e : engine) :
  NoDup (allMethodNames e) ∧
  (∀ m, m ∈ allMethodNames e ↔ m ∈ standard_names ∨ m ∈ _customMethodNames e) ∧
  ∃ rest,
    allMethodNames e = standard_names ++ rest ∧
    ∀ m, m ∈ rest ↔ m ∈ _customMethodNames e ∧ m ∉ standard_names.
Proof.
  split; [apply NoDup_Set_from |]. split; [apply elem_of_allMethodNames |].
  unfold allMethodNames. rewrite builtInMethods_standard.
  rewrite Set_from_app_fresh;
    [| apply NoDup_standard_names | intros x _; apply not_elem_of_nil].
  eexists. split; [reflexivity |].
  intros m. rewrite elem_of_Set_from, app_nil_r.
  rewrite (list_elem_of_In (rev standard_names) m), <- in_rev, <- list_elem_of_In.
  reflexivity.
Qed.







(** *** The two tables *)
















(** X9 — Before [init].  The constructor leaves the prefix map empty, and
    with an empty map every call of a registered method hands the sink
    exactly what the method forwards, without a prefix: methods called on
    the instance between construction and [init] log unprefixed. *)
Theorem no_prefix_before_init `{Host} (cfg : Config.t) :
  well_formed cfg →
  ∃ w0,
    new_ExtendedConsole cfg = (Ret tt, w0) ∧
    prefix (this w0) = ∅ ∧
    console w0 = ∅ ∧
    ∀ (w' : world) (k : string) (args : list value) (ch : channel)
      (parts : list value),
      prefix (this w') = ∅ →
      forwards (this w') k args ch parts →
      invoke k args w' = (Ret (_originalConsole ch parts), sent ch parts w').
Proof.
  intros [_ Hplain].
  destruct (new_ExtendedConsole_spec cfg Hplain) as (out0 & Hnew & _).
  eexists. split; [exact Hnew |]. split; [reflexivity |]. split; [reflexivity |].
  intros w' k args ch parts Hempty Hf.
  rewrite (invoke_forwards _ _ _ _ _ Hf), (getPrefix_empty_map _ _ Hempty).
  reflexivity.
Qed.

Lemma no_prefix_before_init_witness :
  well_formed config_audit ∧
  ∃ w0,
    new_ExtendedConsole (H := sample_host) config_audit = (Ret tt, w0) ∧
    prefix (this w0) = ∅ ∧
    console w0 = ∅ ∧
    ∀ (w' : world) (k : string) (args : list value) (ch : channel)
      (parts : list value),
      prefix (this w') = ∅ →
      forwards (H := sample_host) (this w') k args ch parts →
      invoke (H := sample_host) k args w' = (Ret VUndef, sent ch parts w').
Proof.
  assert (well_formed config_audit) as Hwf by (split; by_evaluation).
  split; [exact Hwf |].
  exact (no_prefix_before_init (H := sample_host) config_audit Hwf).
Defined.

(** *** Calls *)

Section Calls.
Context `{Host}.

(** What a call through the instance can do to the world. *)
Lemma invoke_effect (k : string) (args : list value) (w : world) :
  (∃ e, invoke k args w = (Throw e, w)) ∨
  (∃ r, invoke k args w = (Ret r, w)) ∨
  (∃ ch sent_args,
     invoke k args w = (Ret (_originalConsole ch sent_args), sent ch sent_args w)).
Proof.
  unfold invoke. destruct (this_get (this w) k) as [| | |v].
  - unfold custom_method. monad_simpl.
    destruct (entry (Config.customMethods (config (this w))) k);
      simpl; try (left; eexists; reflexivity).
    destruct (call_function f args); simpl.
    + right. right. eexists _, _. reflexivity.
    + left. eexists. reflexivity.
  - destruct (standard_method k) as [f|] eqn:Hf.
    + pose proof (standard_method_names k f Hf) as Hk.
      unfold standard_names in Hk.
      repeat (apply elem_of_cons in Hk as [-> | Hk];
              [injection Hf as <-; right; right; eexists _, _; reflexivity |]).
      by apply elem_of_nil in Hk.
    + left. eexists. reflexivity.
  - left. eexists. reflexivity.
  - destruct v; monad_simpl; try (left; eexists; reflexivity).
    destruct (call_function f args); [right; left | left]; eexists; reflexivity.
Qed.
End Calls.

(** X10 — Frame of a call.  A call of a logging method or of a custom
    wrapper leaves the instance (prefix map and suppression flag included)
    and the global bindings as they were and invokes the sink at most once;
    a call that throws, as when the handler of a custom method throws, has
    invoked no sink. *)
Theorem a_call_writes_at_most_one_record `{Host}
    (k : string) (args : list value) (w : world) :
  k ∈ standard_names ∨ k ∈ wrappers (this w) →
  let r := invoke k args w in
  this r.2 = this w ∧
  console r.2 = console w ∧
  (sunk r.2 = sunk w ∨ ∃ record, sunk r.2 = sunk w ++ [record]) ∧
  ∀ e, r.1 = Throw e → r.2 = w.
Proof.
  intros _ r. subst r.
  destruct (invoke_effect k args w)
    as [[e He] | [[v Hv] | (ch & sent_args & Hs)]].
  - rewrite He. simpl. repeat split; auto.
  - rewrite Hv. simpl. repeat split; auto; discriminate.
  - rewrite Hs. simpl. repeat split; eauto; discriminate.
Qed.

Lemma a_call_writes_at_most_one_record_witness :
  let w := (started (H := sample_host) config_boom).2 in
  ("boom" ∈ standard_names ∨ "boom" ∈ wrappers (this w)) ∧
  let r := invoke (H := sample_host) "boom" [] w in
  this r.2 = this w ∧
  console r.2 = console w ∧
  (sunk r.2 = sunk w ∨ ∃ record, sunk r.2 = sunk w ++ [record]) ∧
  ∀ e, r.1 = Throw e → r.2 = w.
Proof.
  intros w.
  assert ("boom" ∈ standard_names ∨ "boom" ∈ wrappers (this w)) as Hk
    by (right; by_evaluation).
  split; [exact Hk |].
  exact (a_call_writes_at_most_one_record (H := sample_host) "boom" [] w Hk).
Defined.



(** X12 — A member that is not a function.  Calling through the instance,
    through [noPrefix()] or, in development mode, through [dev()] a name
    the instance does not provide as a function (a misspelt method,
    [noPrefix] itself, a data field) throws and leaves the world as it was,
    the suppression flag included; when development mode is off, the same
    call through [dev()] silently returns [undefined]. *)
Theorem calling_a_missing_method `{Host}
    (prop : string) (args : list value) (w : world) :
  member_is_function (this_get (this w) prop) = false →
  ∃ e,
    invoke prop args w = (Throw e, w) ∧
    noPrefix prop args w = (Throw e, w) ∧
    dev prop args w = if isDev (this w) then (Throw e, w) else (Ret VUndef, w).
Proof.
  intros Hf.
  assert (∃ e, invoke prop args w = (Throw e, w)) as [e He].
  { unfold invoke. destruct (this_get (this w) prop) as [| | |v];
      try discriminate; [eexists; reflexivity |].
    destruct v; try discriminate; eexists; reflexivity. }
  exists e. split; [exact He |]. split.
  - unfold noPrefix. monad_simpl. by rewrite Hf.
  - unfold dev. monad_simpl. by destruct (isDev (this w)).
Qed.

Lemma calling_a_missing_method_witness :
  let w := (started (H := sample_host) Config.empty).2 in
  member_is_function (this_get (this w) "noPrefix") = false ∧
  ∃ e,
    invoke (H := sample_host) "noPrefix" [] w = (Throw e, w) ∧
    noPrefix (H := sample_host) "noPrefix" [] w = (Throw e, w) ∧
    dev (H := sample_host) "noPrefix" [] w =
      if isDev (this w) then (Throw e, w) else (Ret VUndef, w).
Proof.
  intros w.
  assert (member_is_function (this_get (this w) "noPrefix") = false) as Hf
    by (vm_compute; reflexivity).
  split; [exact Hf |].
  exact (calling_a_missing_method (H := sample_host) "noPrefix" [] w Hf).
Defined.

(** X13 — A suppression that is in force stays in force.  Once the flag is
    truthy, no logging operation makes it falsy again: it is still truthy
    after a call of a logging method or custom wrapper through the
    instance, through [dev()], through [noPrefix()] (returning or throwing)
    and after [init]; and as long as it is, no method gets a prefix. *)
Theorem suppression_in_force_is_never_lifted `{Host} (w : world) :
  truthy (_temporarilyDisablePrefix (this w)) = true →
  (∀ m, _getPrefix (this w) m = "") ∧
  (∀ k args, k ∈ standard_names ∨ k ∈ wrappers (this w) →
     truthy (_temporarilyDisablePrefix (this (invoke k args w).2)) = true) ∧
  (∀ k args, k ∈ standard_names ∨ k ∈ wrappers (this w) →
     truthy (_temporarilyDisablePrefix (this (dev k args w).2)) = true) ∧
  (∀ k args, k ∈ standard_names ∨ k ∈ wrappers (this w) →
     truthy (_temporarilyDisablePrefix (this (noPrefix k args w).2)) = true) ∧
  truthy (_temporarilyDisablePrefix (this (init w).2)) = true.
Proof.
  intros Hflag.
  assert (∀ k args w0,
            truthy (_temporarilyDisablePrefix (this w0)) = true →
            truthy (_temporarilyDisablePrefix (this (invoke k args w0).2)) = true)
    as Hinv.
  { intros k args w0 H0.
    destruct (invoke k args w0) as [o w'] eqn:Hi.
    apply invoke_preserves_this in Hi as [Hthis _]. simpl. by rewrite Hthis. }
  split; [| split; [| split; [| split]]].
  - intros m. unfold _getPrefix. by rewrite Hflag.
  - intros k args _. by apply Hinv.
  - intros k args _. unfold dev. monad_simpl.
    destruct (isDev (this w)); simpl; [by apply Hinv | exact Hflag].
  - intros k args _.
    destruct (member_is_function (this_get (this w) k)) eqn:Hf.
    + rewrite (noPrefix_unfold _ _ _ Hf).
      destruct (invoke k args
                  (set_this (set_temporarilyDisablePrefix (VBool true)) w))
        as [[result | e] w'] eqn:Hi;
        apply invoke_preserves_this in Hi as [Hthis _]; simpl;
        first [exact Hflag | by rewrite Hthis].
    + unfold noPrefix. monad_simpl. rewrite Hf. by apply Hinv.
  - destruct (init_keeps w) as (_ & _ & Hkeep & _). by rewrite Hkeep.
Qed.

Lemma suppression_in_force_is_never_lifted_witness :
  let w := (noPrefix (H := sample_host) "boom" []
              (started (H := sample_host) config_boom).2).2 in
  truthy (_temporarilyDisablePrefix (this w)) = true ∧
  (∀ m, _getPrefix (this w) m = "") ∧
  (∀ k args, k ∈ standard_names ∨ k ∈ wrappers (this w) →
     truthy (_temporarilyDisablePrefix
               (this (invoke (H := sample_host) k args w).2)) = true) ∧
  (∀ k args, k ∈ standard_names ∨ k ∈ wrappers (this w) →
     truthy (_temporarilyDisablePrefix
               (this (dev (H := sample_host) k args w).2)) = true) ∧
  (∀ k args, k ∈ standard_names ∨ k ∈ wrappers (this w) →
     truthy (_temporarilyDisablePrefix
               (this (noPrefix (H := sample_host) k args w).2)) = true) ∧
  truthy (_temporarilyDisablePrefix (this (init (H := sample_host) w).2)) = true.
Proof.
  intros w.
  assert (truthy (_temporarilyDisablePrefix (this w)) = true) as Hflag
    by (vm_compute; reflexivity).
  split; [exact Hflag |].
  exact (suppression_in_force_is_never_lifted (H := sample_host) w Hflag).
Defined.

(** X14 — Channels of the logging methods.  Of the nine logging methods of
    the class only [warn], [error] and [info] write to the channel of their
    own name; [log], [success], [check], [skip], [connect] and
    [disconnect] all write to the plain channel. *)
Theorem channels_of_the_logging_methods `{Host}
    (k : string) (args : list value) (w : world) :
  k ∈ standard_names → k ∉ wrappers (this w) →
  ∃ ch sent_args,
    invoke k args w = (Ret (_originalConsole ch sent_args), sent ch sent_args w) ∧
    (k = "warn" → ch = Warning) ∧
    (k = "error" → ch = Error) ∧
    (k = "info" → ch = Informational) ∧
    (k ≠ "warn" → k ≠ "error" → k ≠ "info" → ch = Plain).
Proof.
  intros Hk Hw. rewrite (standard_invoke k args w Hk Hw).
  eexists _, _. split; [reflexivity |].
  unfold standard_names in Hk.
  repeat (apply elem_of_cons in Hk as [-> | Hk];
          [repeat split; intros; first [reflexivity | discriminate | congruence] |]).
  by apply elem_of_nil in Hk.
Qed.

Lemma channels_of_the_logging_methods_witness :
  let w := (started (H := sample_host) Config.empty).2 in
  "success" ∈ standard_names ∧
  ("success" ∉ wrappers (this w)) ∧
  ∃ ch sent_args,
    invoke (H := sample_host) "success" [VStr "ok"] w =
      (Ret VUndef, sent ch sent_args w) ∧
    ("success" = "warn" → ch = Warning) ∧
    ("success" = "error" → ch = Error) ∧
    ("success" = "info" → ch = Informational) ∧
    ("success" ≠ "warn" → "success" ≠ "error" → "success" ≠ "info" → ch = Plain).
Proof.
  intros w.
  assert ("success" ∈ standard_names) as Hk by (unfold standard_names; in_list).
  assert ("success" ∉ wrappers (this w)) as Hw by by_evaluation.
  split; [exact Hk |]. split; [exact Hw |].
  exact (channels_of_the_logging_methods (H := sample_host)
           "success" [VStr "ok"] w Hk Hw).
Defined.

(** *** Warnings of start-up *)



Section Warnings.
Context `{Host}.



End Warnings.









(** X19 — [devMode] that is not a boolean.  A [devMode] option that is not
    [true] or [false] (absent, or a truthy value such as [1]) is ignored:
    from construction on, and through [init], development mode is on
    exactly when the environment says so, and [dev()] is live or inert
    accordingly. *)
Theorem non_boolean_devMode_defers_to_environment `{Host} (cfg : Config.t) :
  well_formed cfg →
  (∀ b, Config.devMode cfg ≠ VBool b) →
  ∃ w0,
    new_ExtendedConsole cfg = (Ret tt, w0) ∧
    isDev (this w0) = NODE_ENV_is_development ∧
    isDev (this (init w0).2) = NODE_ENV_is_development ∧
    ∀ (w' : world) (prop : string) (args : list value),
      isDev (this w') = isDev (this w0) →
      dev prop args w' =
        if NODE_ENV_is_development then invoke prop args w'
        else (Ret VUndef, w').
Proof.
  intros [_ Hplain] Hd.
  destruct (new_ExtendedConsole_spec cfg Hplain) as (out0 & Hnew & _).
  assert (isDev (fields cfg) = NODE_ENV_is_development) as Hb.
  { unfold fields; simpl.
    destruct (Config.devMode cfg) eqn:Hm; try reflexivity. by destruct (Hd b). }
  eexists. split; [exact Hnew |]. split; [exact Hb |]. split.
  - destruct (init_keeps
                (World (set_wrappers (list_to_set (callable_names cfg)) (fields cfg))
                       ∅ out0)) as [Hi _].
    rewrite Hi. exact Hb.
  - intros w' prop args Hw'. unfold dev. monad_simpl. simpl in Hw'.
    rewrite Hw'. simpl. rewrite Hb. destruct NODE_ENV_is_development; reflexivity.
Qed.

Lemma non_boolean_devMode_defers_to_environment_witness :
  well_formed config_plain ∧
  (∀ b, Config.devMode config_plain ≠ VBool b) ∧
  truthy (Config.devMode config_plain) = true ∧
  ∃ w0,
    new_ExtendedConsole (H := sample_host) config_plain = (Ret tt, w0) ∧
    isDev (this w0) = false ∧
    isDev (this (init (H := sample_host) w0).2) = false ∧
    ∀ (w' : world) (prop : string) (args : list value),
      isDev (this w') = isDev (this w0) →
      dev (H := sample_host) prop args w' = (Ret VUndef, w').
Proof.
  assert (well_formed config_plain) as Hwf by (split; by_evaluation).
  assert (∀ b, Config.devMode config_plain ≠ VBool b) as Hd
    by (intros b; discriminate).
  split; [exact Hwf |]. split; [exact Hd |]. split; [reflexivity |].
  exact (non_boolean_devMode_defers_to_environment (H := sample_host)
           config_plain Hwf Hd).
Defined.

(** *** Suppression when none is in force, and the shadowed test of tier 1 *)



Lemma allMethodNames_head (e : engine) :
  ∃ rest, allMethodNames e = "log" :: rest.
Proof.
  unfold allMethodNames. rewrite builtInMethods_standard.
  unfold standard_names. cbn [app Set_from].
  rewrite bool_decide_false by apply not_elem_of_nil. by eexists.
Qed.

(** X21 — An override map with an own entry named [hasOwnProperty].  When
    prefixing is enabled and [config.prefix] has an own entry named
    [hasOwnProperty] whose value is not a function, the test
    [userPrefix.hasOwnProperty(method)] of the first turn of the resolution
    loop calls that value: [init] rejects with a [TypeError], after the
    import warning if there is one, with the prefix map still empty and
    nothing bound on the global object. *)
Theorem own_hasOwnProperty_entry_makes_init_reject `{Host}
    (cfg : Config.t) (v : value) :
  well_formed cfg →
  not_false (Config.usePrefix cfg) = true →
  Config.prefix cfg !! "hasOwnProperty" = Some v →
  is_function v = false →
  ∃ w0,
    new_ExtendedConsole cfg = (Ret tt, w0) ∧
    init w0 =
      (Throw (TypeError "userPrefix.hasOwnProperty is not a function"),
       World (this w0) (console w0) (sunk w0 ++ import_warning (fields cfg) cfg)) ∧
    prefix (this w0) = ∅ ∧
    console w0 = ∅.
Proof.
  intros [_ Hplain] Hu Hv Hnf.
  destruct (new_ExtendedConsole_spec cfg Hplain) as (out0 & Hnew & _).
  eexists. split; [exact Hnew |]. split; [| split; reflexivity].
  set (e0 := set_wrappers (list_to_set (callable_names cfg)) (fields cfg)).
  pose proof (init_outcome (World e0 ∅ out0)) as Hi. simpl in Hi.
  assert (this_config e0 = cfg) as Hcfg.
  { unfold this_config. rewrite bool_decide_false; [reflexivity |].
    apply (reserved_not_wrapped cfg "config" Hplain).
    unfold reserved_names. in_list. }
  rewrite Hcfg in Hi.
  assert (resolution e0 cfg =
            Throw (TypeError "userPrefix.hasOwnProperty is not a function"))
    as Hres.
  { unfold resolution. simpl. rewrite Hu.
    destruct (allMethodNames_head e0) as [rest ->].
    apply resolve_all_throws.
    unfold prefixValue_for, hasOwnProperty. rewrite Hv.
    destruct v; try reflexivity. discriminate Hnf. }
  rewrite Hres in Hi. exact Hi.
Qed.

Lemma own_hasOwnProperty_entry_makes_init_reject_witness :
  well_formed config_own_hasOwnProperty ∧
  not_false (Config.usePrefix config_own_hasOwnProperty) = true ∧
  Config.prefix config_own_hasOwnProperty !! "hasOwnProperty" = Some (VStr "!") ∧
  is_function (VStr "!") = false ∧
  ∃ w0,
    new_ExtendedConsole (H := sample_host) config_own_hasOwnProperty = (Ret tt, w0) ∧
    init (H := sample_host) w0 =
      (Throw (TypeError "userPrefix.hasOwnProperty is not a function"),
       World (this w0) (console w0)
             (sunk w0 ++
              import_warning (H := sample_host)
                (fields (H := sample_host) config_own_hasOwnProperty)
                config_own_hasOwnProperty)) ∧
    prefix (this w0) = ∅ ∧
    console w0 = ∅.
Proof.
  assert (well_formed config_own_hasOwnProperty) as Hwf by (split; by_evaluation).
  assert (Config.prefix config_own_hasOwnProperty !! "hasOwnProperty"
          = Some (VStr "!")) as Hv by (vm_compute; reflexivity).
  split; [exact Hwf |]. split; [reflexivity |]. split; [exact Hv |].
  split; [reflexivity |].
  exact (own_hasOwnProperty_entry_makes_init_reject (H := sample_host)
           config_own_hasOwnProperty (VStr "!") Hwf eq_refl Hv eq_refl).
Defined.
